(** * proxy-tools: the prober, the concurrent runner and the two command
    line tools ([proxy_checker.py], [proxy_finder.py]).

    Python values are embedded as follows.
    - a dict with string keys is a [gmap string _]; a missing key is [None];
    - a JSON document (what [response.json()], [json.loads] return and what
      [json.dump] receives) is a [json];
    - a float is a rational [Q] (no statement depends on rounding);
    - an [int] is a [Z]; a [len] is a [nat];
    - an exception is an [exn]: its class and its [str(e)];
    - the network, the clock, the thread scheduler and the iteration order
      of a [set] are inputs of the functions that use them;
    - standard output and the file system are threaded as a state. *)

From Stdlib Require Import QArith Ascii.
From stdpp Require Import gmap strings list fin_maps pretty.

#[local] Set Warnings "-register-all".
Local Open Scope string_scope.

(** ** Python values *)

Inductive json : Type :=
  | JNull
  | JBool (b : bool)
  | JInt (n : Z)
  | JFloat (x : Q)
  | JStr (s : string)
  | JArr (items : list json)
  | JObj (fields : gmap string json).

(** The exception classes that the [except] clauses of the two programs
    tell apart; every one of them derives from [Exception]. *)
Inductive exn_class : Type :=
  | RequestException
  | FileNotFoundError
  | ValueError
  | KeyError
  | OtherException.

#[global] Instance exn_class_eq_dec : EqDecision exn_class.
Proof. solve_decision. Defined.

Record exn : Type := Exn { exn_cls : exn_class; exn_str : string }.

(** Built-ins and library functions whose results the programs only pass
    on: number and value formatting, rounding, the JSON codec. *)
Class Runtime : Type := {
  py_round2 : Q → Q;                 (* round(x, 2) *)
  py_str : json → string;            (* str(v), what an f-string inserts *)
  py_format_2f : Q → string;         (* format(x, '.2f') *)
  json_loads : string → exn + json;  (* json.loads(text) *)
  json_dumps : json → string         (* the text json.dump(v, f, indent=2) writes *)
}.

(** ** Strings *)

Definition newline : ascii := Ascii.ascii_of_nat 10.

(** Whitespace as [str.strip()] sees it in the ASCII range. *)
Definition is_space (c : ascii) : bool :=
  let n := Ascii.nat_of_ascii c in
  ((9 <=? n)%nat && (n <=? 13)%nat) || ((28 <=? n)%nat && (n <=? 32)%nat).

Fixpoint lstrip (s : string) : string :=
  match s with
  | String c rest => if is_space c then lstrip rest else s
  | EmptyString => EmptyString
  end.

Fixpoint rstrip (s : string) : string :=
  match s with
  | EmptyString => EmptyString
  | String c rest =>
      match rstrip rest with
      | EmptyString => if is_space c then EmptyString else String c EmptyString
      | kept => String c kept
      end
  end.

(** [s.strip()] *)
Definition strip (s : string) : string := rstrip (lstrip s).

(** [s.startswith('#')] *)
Definition startswith_hash (s : string) : bool :=
  match s with
  | String c _ => bool_decide (c = "#"%char)
  | EmptyString => false
  end.

(** [':' in s] *)
Fixpoint has_colon (s : string) : bool :=
  match s with
  | String c rest => bool_decide (c = ":"%char) || has_colon rest
  | EmptyString => false
  end.

(** The lines a text file yields when iterated: each keeps its newline. *)
Fixpoint file_lines (s : string) : list string :=
  match s with
  | EmptyString => []
  | String c rest =>
      if bool_decide (c = newline) then String c EmptyString :: file_lines rest
      else match file_lines rest with
           | [] => [String c EmptyString]
           | line :: lines => String c line :: lines
           end
  end.

(** [s.split('\n')] *)
Fixpoint split_lines (s : string) : list string :=
  match s with
  | EmptyString => [EmptyString]
  | String c rest =>
      if bool_decide (c = newline) then EmptyString :: split_lines rest
      else match split_lines rest with
           | [] => [String c EmptyString]
           | line :: lines => String c line :: lines
           end
  end.

(** [Some] of what precedes the last ['.'] of [s], [None] without one. *)
Fixpoint before_last_dot (s : string) : option string :=
  match s with
  | EmptyString => None
  | String c rest =>
      match before_last_dot rest with
      | Some p => Some (String c p)
      | None => if bool_decide (c = "."%char) then Some EmptyString else None
      end
  end.

(** [s.rsplit('.', 1)[0]] *)
Definition rsplit_dot_head (s : string) : string :=
  default s (before_last_dot s).

(** [str] of a non-negative count such as [len(l)]. *)
Definition str_nat (n : nat) : string := pretty n.

(** ** The HTTP client ([requests]) *)

(** [response.json()] either returns the decoded body or raises. *)
Record Response : Type := {
  status_code : Z;
  text : string;
  json_body : exn + json;
  elapsed : Q
}.

(** [requests.get(...)] either raises or returns a response. *)
Inductive reply : Type :=
  | Raised (e : exn)
  | Responded (r : Response).

(** One proxied request as a probe sees it: what [requests.get] did and the
    wall-clock seconds that [time.time()] measured around it. *)
Record exchange : Type := { answer : reply; wall : Q }.

Definition type_name (v : json) : string :=
  match v with
  | JNull => "NoneType"
  | JBool _ => "bool"
  | JInt _ => "int"
  | JFloat _ => "float"
  | JStr _ => "str"
  | JArr _ => "list"
  | JObj _ => "dict"
  end.

(** [data.get('origin', 'unknown')]: [dict.get] on a decoded object; any
    other decoded value has no attribute [get] (an AttributeError). *)
Definition data_get_origin (data : json) : exn + json :=
  match data with
  | JObj fields => inr (default (JStr "unknown") (fields !! "origin"))
  | _ => inl (Exn OtherException
                ("'" +:+ type_name data +:+ "' object has no attribute 'get'"))
  end.

(** [f'HTTP {response.status_code}'] *)
Definition http_error (code : Z) : string := "HTTP " +:+ pretty code.

(** ** The thread pool *)

(** An order in which the elements of [pending] come out, driven by the
    picks [sched]: each pick takes one of the elements still pending; when
    the picks run out the rest comes out in the order it was put in.  Every
    order of the elements is produced by some [sched] (see
    [pick_order_complete]).  It is the order in which [as_completed]
    yields the futures of a pool, and the order in which a [set] is
    iterated. *)
Fixpoint pick_order {A : Type} (sched : list nat) (pending : list A) : list A :=
  match sched with
  | [] => pending
  | k :: sched' =>
      match pending !! (k mod length pending) with
      | Some x => x :: pick_order sched' (delete (k mod length pending) pending)
      | None => pending
      end
  end.

(** [as_completed(futures)]: the results of the futures as they complete. *)
Definition as_completed {A : Type} (sched : list nat) (futures : list A) : list A :=
  pick_order sched futures.

(** [list(set(l))]: the distinct elements of [l], in the order of the
    set's hash table. *)
Definition list_set (hash_order : list nat) (l : list string) : list string :=
  pick_order hash_order (elements (list_to_set l : gset string)).

(** [l[:m]] with Python's slice rules: a negative [m] counts from the end. *)
Definition slice_to {A : Type} (l : list A) (m : Z) : list A :=
  if decide (m < 0)%Z then take (Z.to_nat (Z.of_nat (length l) + m)) l
  else take (Z.to_nat m) l.

(** ** Programs: standard output, files, exceptions, [sys.exit] *)

Record world : Type := {
  stdout : list string;           (* one entry per call of print *)
  files : gmap string string;     (* path -> text *)
  unwritable : gset string        (* paths that cannot be opened for writing *)
}.

Inductive result (A : Type) : Type :=
  | Return (a : A)
  | Raise (e : exn)
  | Exit (code : Z).
Arguments Return {A} a.
Arguments Raise {A} e.
Arguments Exit {A} code.

Definition py (A : Type) : Type := world → result A * world.

#[global] Instance py_ret : MRet py := λ A a w, (Return a, w).

#[global] Instance py_bind : MBind py := λ A B k c w,
  match c w with
  | (Return a, w') => k a w'
  | (Raise e, w') => (Raise e, w')
  | (Exit code, w') => (Exit code, w')
  end.

Definition raise {A : Type} (e : exn) : py A := λ w, (Raise e, w).

Definition sys_exit {A : Type} (code : Z) : py A := λ w, (Exit code, w).

(** [try: c except cls: h] for one exception class. *)
Definition try_except {A : Type} (c : py A) (cls : exn_class) (h : exn → py A) : py A :=
  λ w, match c w with
       | (Raise e, w') => if decide (exn_cls e = cls) then h e w' else (Raise e, w')
       | other => other
       end.

Definition print (line : string) : py unit :=
  λ w, (Return (), {| stdout := (stdout w ++ [line])%list; files := files w;
                      unwritable := unwritable w |}).

(** [open(path, 'r')] and the iteration over its lines. *)
Definition read_lines (path : string) : py (list string) :=
  λ w, match files w !! path with
       | Some content => (Return (file_lines content), w)
       | None => (Raise (Exn FileNotFoundError
                   ("[Errno 2] No such file or directory: '" +:+ path +:+ "'")), w)
       end.

(** [open(path, 'w')] followed by writing [content]. *)
Definition write_file (path content : string) : py unit :=
  λ w, if decide (path ∈ unwritable w)
       then (Raise (Exn OtherException
               ("[Errno 13] Permission denied: '" +:+ path +:+ "'")), w)
       else (Return (), {| stdout := stdout w; files := <[path := content]> (files w);
                           unwritable := unwritable w |}).

(** [d[key]] *)
Definition subscript (d : gmap string json) (key : string) : py json :=
  match d !! key with
  | Some v => mret v
  | None => raise (Exn KeyError ("'" +:+ key +:+ "'"))
  end.

(** [for x in l: body], threading the loop's variables [acc]. *)
Fixpoint for_each {A S : Type} (l : list A) (body : S → A → py S) (acc : S) : py S :=
  match l with
  | [] => mret acc
  | x :: rest => acc' ← body acc x; for_each rest body acc'
  end.

(** [ThreadPoolExecutor(max_workers=n)] *)
Definition ThreadPoolExecutor (max_workers : Z) : py unit :=
  if decide (max_workers ≤ 0)%Z
  then raise (Exn ValueError "max_workers must be greater than 0")
  else mret ().

(** [f.write(content)] on a file opened for writing. *)
Definition append_file (path content : string) : py unit :=
  λ w, (Return (), {| stdout := stdout w;
                      files := <[path := default "" (files w !! path) +:+ content]> (files w);
                      unwritable := unwritable w |}).

(** What the network, the clock and the scheduler do during one run. *)
Record env : Type := {
  source_net : nat → string → reply;     (* i-th submitted fetch, its URL *)
  source_sched : list nat;               (* completion order of the fetches *)
  hash_order : list nat;                 (* iteration order of the set *)
  probe_net : nat → string → exchange;   (* i-th submitted probe, its proxy *)
  probe_sched : list nat                 (* completion order of the probes *)
}.

Definition nl : string := String newline EmptyString.

(** [v == s] for a string literal [s]. *)
Definition is_str (v : json) (s : string) : bool :=
  match v with
  | JStr t => bool_decide (t = s)
  | _ => false
  end.

Section Formatting.
Context `{Runtime}.

(** What an f-string inserts for [v]: a [str] as it is. *)
Definition fstr (v : json) : string :=
  match v with
  | JStr s => s
  | _ => py_str v
  end.

(** [f'{v:.2f}'] *)
Definition format_2f (v : json) : py string :=
  match v with
  | JFloat x => mret (py_format_2f x)
  | JInt n => mret (py_format_2f (inject_Z n))
  | JBool b => mret (py_format_2f (inject_Z (if b then 1 else 0)))
  | JStr _ => raise (Exn ValueError "Unknown format code 'f' for object of type 'str'")
  | _ => raise (Exn OtherException
           ("unsupported format string passed to " +:+ type_name v +:+ ".__format__"))
  end.

End Formatting.

(** The record of a failed probe, as both tools build it. *)
Definition failed (proxy msg : string) : gmap string json :=
  <["proxy" := JStr proxy]> (<["status" := JStr "failed"]> (<["error" := JStr msg]> ∅)).

(** ** proxy_checker.py *)

Module Checker.
Section Programs.
Context `{Runtime}.

(** The two [except] clauses of [proxy_checker.check_proxy], lines 47-58. *)
Definition handler (proxy : string) (e : exn) : gmap string json :=
  match exn_cls e with
  | RequestException => failed proxy (exn_str e)
  | _ => failed proxy ("Unexpected error: " +:+ exn_str e)
  end.

(** [proxy_checker.check_proxy], lines 13-58. *)
Definition check_proxy (proxy : string) (x : exchange) : gmap string json :=
  match answer x with
  | Raised e => handler proxy e
  | Responded response =>
      if decide (status_code response = 200%Z) then
        match json_body response with
        | inl e => handler proxy e
        | inr data =>
            match data_get_origin data with
            | inl e => handler proxy e
            | inr real_ip =>
                <["proxy" := JStr proxy]> (<["status" := JStr "working"]>
                  (<["response_time" := JFloat (elapsed response)]>
                    (<["real_ip" := real_ip]> ∅)))
            end
        end
      else failed proxy (http_error (status_code response))
  end.

(** The filter of line 66. *)
Definition keep_line (line : string) : bool :=
  negb (bool_decide (strip line = "")) && negb (startswith_hash line).

(** The candidates of a proxy list file, line 66. *)
Definition load_proxies (lines : list string) : list string :=
  strip <$> filter (λ line, keep_line line = true) lines.

(** The body of the loop of lines 80-88 over the loop's variables
    [(results, working_count)]. *)
Definition report (acc : list (gmap string json) * nat)
    (result : gmap string json) : py (list (gmap string json) * nat) :=
  let results := (acc.1 ++ [result])%list in
  status ← subscript result "status";
  if is_str status "working" then
    proxy ← subscript result "proxy";
    response_time ← subscript result "response_time";
    seconds ← format_2f response_time;
    real_ip ← subscript result "real_ip";
    print ("✓ " +:+ fstr proxy +:+ " - " +:+ seconds +:+ "s - Real IP: " +:+ fstr real_ip);;
    mret (results, S acc.2)
  else
    proxy ← subscript result "proxy";
    error ← subscript result "error";
    print ("✗ " +:+ fstr proxy +:+ " - " +:+ fstr error);;
    mret (results, acc.2).

(** The futures of line 78, one per element of [proxies]. *)
Definition submit_all (E : env) (proxies : list string) : list (gmap string json) :=
  imap (λ i proxy, check_proxy proxy (probe_net E i proxy)) proxies.

(** [proxy_checker.check_proxies_from_file], lines 60-91. *)
Definition check_proxies_from_file (filename : string) (max_workers : Z) (E : env)
    : py (list (gmap string json)) :=
  loaded ← try_except
    (lines ← read_lines filename; mret (Some (load_proxies lines)))
    FileNotFoundError
    (λ _, print ("Error: File '" +:+ filename +:+ "' not found");; mret None);
  match loaded with
  | None => mret []
  | Some proxies =>
      print ("Loaded " +:+ str_nat (length proxies) +:+ " proxies from " +:+ filename);;
      print ("Checking proxies with " +:+ pretty max_workers +:+ " concurrent threads...");;
      ThreadPoolExecutor max_workers;;
      acc ← for_each (as_completed (probe_sched E) (submit_all E proxies))
                     report ([], 0);
      print (nl +:+ "Summary: " +:+ str_nat acc.2 +:+ "/" +:+ str_nat (length proxies)
               +:+ " proxies are working");;
      mret acc.1
  end.

(** [proxy_checker.main], lines 93-107, on [sys.argv = argv]. *)
Definition main (argv : list string) (E : env) : py unit :=
  if decide (length argv ≠ 2) then
    print "Usage: python3 proxy_checker.py <proxy_list_file>";;
    print "File should contain one proxy per line in format: ip:port";;
    sys_exit 1
  else
    match argv !! 1 with
    | None => raise (Exn OtherException "list index out of range")
    | Some filename =>
        results ← check_proxies_from_file filename 10 E;
        let output_file := rsplit_dot_head filename +:+ "_results.json" in
        write_file output_file (json_dumps (JArr (JObj <$> results)));;
        print (nl +:+ "Results saved to " +:+ output_file)
    end.

End Programs.
End Checker.

(** ** proxy_finder.py *)

Module Finder.

(** An entry of [self.sources]. *)
Record source : Type := {
  name : string;
  url : string;
  parser : string → exn + list string
}.

Record ProxyFinder : Type := {
  sources : list source;
  test_proxies : list string
}.

Section Programs.
Context `{Runtime}.

(** [parse_free_proxy_list], lines 44-48. *)
Definition parse_free_proxy_list (content : string) : exn + list string := inr [].

(** The plain-text reading of lines 56-57. *)
Definition plain_text_list (content : string) : list string :=
  strip <$> filter (λ line, has_colon line = true) (split_lines content).

(** [f"{proxy['ip']}:{proxy['port']}"]: [None] when a subscript raises. *)
Definition ip_port (proxy : json) : option string :=
  match proxy with
  | JObj fields =>
      ip ← fields !! "ip"; port ← fields !! "port";
      Some (fstr ip +:+ ":" +:+ fstr port)
  | _ => None
  end.

(** The comprehension of line 54 over the decoded [data]: [None] when the
    iteration or one of its subscripts raises. *)
Definition ip_port_list (data : json) : option (list string) :=
  match data with
  | JArr items => mapM ip_port items
  | JObj fields => if decide (fields = ∅) then Some [] else None
  | JStr s => if decide (s = "") then Some [] else None
  | _ => None
  end.

(** [parse_proxy_list_download], lines 50-57. *)
Definition parse_proxy_list_download (content : string) : exn + list string :=
  match json_loads content with
  | inr data => inr (default (plain_text_list content) (ip_port_list data))
  | inl _ => inr (plain_text_list content)
  end.

(** [parse_proxyscrape], lines 59-61. *)
Definition parse_proxyscrape (content : string) : exn + list string :=
  inr (strip <$> filter (λ line, has_colon line && negb (bool_decide (strip line = "")) = true)
                        (split_lines content)).

(** [ProxyFinder.__init__], lines 15-42. *)
Definition init : ProxyFinder := {|
  sources := [
    {| name := "free-proxy-list.net";
       url := "https://free-proxy-list.net/";
       parser := parse_free_proxy_list |};
    {| name := "proxy-list.download HTTP";
       url := "https://www.proxy-list.download/api/v1/get?type=http";
       parser := parse_proxy_list_download |};
    {| name := "proxy-list.download HTTPS";
       url := "https://www.proxy-list.download/api/v1/get?type=https";
       parser := parse_proxy_list_download |};
    {| name := "proxyscrape HTTP";
       url := "https://api.proxyscrape.com/v2/?request=getproxies&protocol=http&timeout=10000&country=all&ssl=all&anonymity=all";
       parser := parse_proxyscrape |} ];
  test_proxies := ["http://httpbin.org/ip"]
|}.

(** The two [except] clauses of [fetch_proxy_list], lines 79-84. *)
Definition fetch_handler (src : source) (e : exn) : py (list string) :=
  match exn_cls e with
  | RequestException => print ("✗ " +:+ name src +:+ ": " +:+ exn_str e);; mret []
  | _ => print ("✗ " +:+ name src +:+ ": Parse error - " +:+ exn_str e);; mret []
  end.

(** [fetch_proxy_list], lines 63-84, on what [requests.get] did. *)
Definition fetch_proxy_list (src : source) (r : reply) : py (list string) :=
  match r with
  | Raised e => fetch_handler src e
  | Responded response =>
      if decide (status_code response = 200%Z) then
        match parser src (text response) with
        | inr proxies =>
            print ("✓ " +:+ name src +:+ ": Found " +:+ str_nat (length proxies) +:+ " proxies");;
            mret proxies
        | inl e => fetch_handler src e
        end
      else
        print ("✗ " +:+ name src +:+ ": " +:+ http_error (status_code response));;
        mret []
  end.

(** [ProxyFinder.check_proxy], lines 86-133. *)
Definition check_proxy (proxy : string) (x : exchange) : gmap string json :=
  match answer x with
  | Raised e => failed proxy (exn_str e)
  | Responded response =>
      let response_time := wall x in
      if decide (status_code response = 200%Z) then
        let without_ip : gmap string json :=
          <["proxy" := JStr proxy]> (<["status" := JStr "working"]>
            (<["response_time" := JFloat (py_round2 response_time)]>
              (<["protocol" := JStr "http"]> ∅))) in
        match json_body response with
        | inl _ => without_ip
        | inr data =>
            match data_get_origin data with
            | inl _ => without_ip
            | inr real_ip =>
                <["proxy" := JStr proxy]> (<["status" := JStr "working"]>
                  (<["response_time" := JFloat (py_round2 response_time)]>
                    (<["real_ip" := real_ip]> (<["protocol" := JStr "http"]> ∅))))
            end
        end
      else failed proxy (http_error (status_code response))
  end.

(** The futures of lines 141-144, one per source: the source and what
    its request meets. *)
Definition submit_fetches (self : ProxyFinder) (E : env) : list (source * reply) :=
  imap (λ i src, (src, source_net E i (url src))) (sources self).

(** The body of the loop of lines 146-151 over [all_proxies].  The line a
    worker prints is taken to appear when its future is collected. *)
Definition collect (max_proxies_per_source : Z) (all_proxies : list string)
    (future : source * reply) : py (list string) :=
  proxies ← fetch_proxy_list future.1 future.2;
  match proxies with
  | [] => mret all_proxies
  | _ =>
      let limited_proxies := slice_to proxies max_proxies_per_source in
      mret (all_proxies ++ limited_proxies)%list
  end.

(** The fallback list of lines 160-165. *)
Definition fallback_proxies : list string :=
  ["8.8.8.8:80"; "1.1.1.1:80"; "208.67.222.222:80"; "208.67.220.220:80"].

(** Lines 137-166: the candidates handed to the probing pool. *)
Definition gather (self : ProxyFinder) (max_proxies_per_source : Z) (E : env)
    : py (list string) :=
  print "Fetching proxy lists from sources...";;
  ThreadPoolExecutor 5;;
  all_proxies ← for_each (as_completed (source_sched E) (submit_fetches self E))
                         (collect max_proxies_per_source) [];
  let all_proxies := list_set (hash_order E) all_proxies in
  print (nl +:+ "Collected " +:+ str_nat (length all_proxies) +:+ " unique proxies");;
  match all_proxies with
  | [] =>
      print "No proxies found from sources. Using test proxies...";;
      mret (all_proxies ++ fallback_proxies)%list
  | _ => mret all_proxies
  end.

(** The futures of lines 172-175, one per element of [all_proxies]. *)
Definition submit_all (E : env) (all_proxies : list string) : list (gmap string json) :=
  imap (λ i proxy, check_proxy proxy (probe_net E i proxy)) all_proxies.

(** [result.get('real_ip', 'N/A')] *)
Definition get_real_ip (result : gmap string json) : json :=
  default (JStr "N/A") (result !! "real_ip").

(** The body of the loop of lines 177-183 over [working_proxies]. *)
Definition report (working_proxies : list (gmap string json))
    (result : gmap string json) : py (list (gmap string json)) :=
  status ← subscript result "status";
  if is_str status "working" then
    let working_proxies := (working_proxies ++ [result])%list in
    proxy ← subscript result "proxy";
    response_time ← subscript result "response_time";
    print ("✓ " +:+ fstr proxy +:+ " - " +:+ fstr response_time +:+ "s - IP: "
             +:+ fstr (get_real_ip result));;
    mret working_proxies
  else
    proxy ← subscript result "proxy";
    error ← subscript result "error";
    print ("✗ " +:+ fstr proxy +:+ " - " +:+ fstr error);;
    mret working_proxies.

(** Lines 168-186: probing [all_proxies]. *)
Definition probe_all (all_proxies : list string) (max_workers : Z) (E : env)
    : py (list (gmap string json)) :=
  print ("Testing " +:+ str_nat (length all_proxies) +:+ " proxies...");;
  ThreadPoolExecutor max_workers;;
  working_proxies ← for_each (as_completed (probe_sched E) (submit_all E all_proxies))
                             report [];
  print (nl +:+ "Found " +:+ str_nat (length working_proxies) +:+ " working proxies");;
  mret working_proxies.

(** [ProxyFinder.find_working_proxies], lines 135-186. *)
Definition find_working_proxies (self : ProxyFinder)
    (max_proxies_per_source max_workers : Z) (E : env) : py (list (gmap string json)) :=
  all_proxies ← gather self max_proxies_per_source E;
  probe_all all_proxies max_workers E.

(** The body of the loop of lines 198-199. *)
Definition write_line (path : string) (_ : unit) (proxy : gmap string json) : py unit :=
  candidate ← subscript proxy "proxy";
  append_file path (fstr candidate +:+ nl).

(** [proxy_finder.main], lines 188-201. *)
Definition main (E : env) : py unit :=
  let finder := init in
  working_proxies ← find_working_proxies finder 50 20 E;
  write_file "working_proxies.json" (json_dumps (JArr (JObj <$> working_proxies)));;
  write_file "working_proxies.txt" "";;
  for_each working_proxies (write_line "working_proxies.txt") ();;
  print (nl +:+ "Results saved to working_proxies.json and working_proxies.txt").

End Programs.
End Finder.

(** * Specifications and sample runs *)

(** A runtime to evaluate the programs on.  It formats the non-negative
    numbers of the sample runs, decodes nothing, and writes the empty
    array as [json.dump] does. *)
Definition two_decimals (x : Q) : string :=
  let cents := (Qnum x * 100 / Z.pos (Qden x))%Z in
  pretty (cents / 100)%Z +:+ "." +:+ (if (cents mod 100 <? 10)%Z then "0" else "")
    +:+ pretty (cents mod 100)%Z.

Definition demo_runtime : Runtime := {|
  py_round2 := λ x, x;
  py_str := λ v, match v with
                 | JInt n => pretty n
                 | JFloat x => two_decimals x
                 | _ => "?"
                 end;
  py_format_2f := two_decimals;
  json_loads := λ _, inl (Exn ValueError "Expecting value: line 1 column 1 (char 0)");
  json_dumps := λ v, match v with JArr [] => "[]" | _ => "[...]" end
|}.

(** The shape of an outcome record. *)
Definition outcome_invariant (o : gmap string json) : Prop :=
  (o !! "status" = Some (JStr "working") ∨ o !! "status" = Some (JStr "failed"))
  ∧ (is_Some (o !! "response_time") ↔ o !! "status" = Some (JStr "working"))
  ∧ (is_Some (o !! "error") ↔ o !! "status" = Some (JStr "failed"))
  ∧ ¬ (is_Some (o !! "response_time") ∧ is_Some (o !! "error")).

(** [sub] occurs in [s]. *)
Definition contains (sub s : string) : Prop := ∃ pre post, s = pre +:+ sub +:+ post.

Definition forbidden : exchange := {|
  answer := Responded {| status_code := 403; text := "Forbidden";
                         json_body := inl (Exn ValueError "Expecting value");
                         elapsed := 1 # 4 |};
  wall := 3 # 10
|}.

(** C1 as written, for one probe function: a 200 response whose body does
    not decode gives a 'working' outcome without [real_ip]. *)
Definition parse_failure_downgraded
    (probe : string → exchange → gmap string json) : Prop :=
  ∀ proxy x response e,
    answer x = Responded response →
    status_code response = 200%Z →
    json_body response = inl e →
    probe proxy x !! "status" = Some (JStr "working")
    ∧ probe proxy x !! "real_ip" = None.

Definition undecodable : exchange := {|
  answer := Responded {| status_code := 200; text := "<html>ok</html>";
                         json_body := inl (Exn RequestException
                                             "Expecting value: line 1 column 1 (char 0)");
                         elapsed := 1 # 4 |};
  wall := 3 # 10
|}.

(** C2 as written, for one probe function: [real_ip] is present only on a
    'working' outcome whose decoded body has an [origin] field, and is
    absent when the decoded body lacks it. *)
Definition real_ip_only_from_origin
    (probe : string → exchange → gmap string json) : Prop :=
  ∀ proxy x,
    (is_Some (probe proxy x !! "real_ip") →
     probe proxy x !! "status" = Some (JStr "working")
     ∧ ∃ response fields,
         answer x = Responded response
         ∧ json_body response = inr (JObj fields)
         ∧ is_Some (fields !! "origin"))
    ∧ (∀ response fields,
         answer x = Responded response →
         status_code response = 200%Z →
         json_body response = inr (JObj fields) →
         fields !! "origin" = None →
         probe proxy x !! "real_ip" = None).

(** A 200 response whose body is the JSON object [{}]. *)
Definition no_origin : exchange := {|
  answer := Responded {| status_code := 200; text := "{}";
                         json_body := inr (JObj ∅);
                         elapsed := 1 # 4 |};
  wall := 3 # 10
|}.

(** What both probes do with [real_ip]: it is present exactly on the
    outcomes of a 200 response whose body decoded to a JSON object, and
    holds the object's [origin], or 'unknown' when there is none. *)
Definition real_ip_spec (probe : string → exchange → gmap string json) : Prop :=
  ∀ proxy x,
    (is_Some (probe proxy x !! "real_ip") →
     probe proxy x !! "status" = Some (JStr "working")
     ∧ ∃ response fields,
         answer x = Responded response
         ∧ status_code response = 200%Z
         ∧ json_body response = inr (JObj fields))
    ∧ (∀ response fields,
         answer x = Responded response →
         status_code response = 200%Z →
         json_body response = inr (JObj fields) →
         probe proxy x !! "status" = Some (JStr "working")
         ∧ probe proxy x !! "real_ip"
           = Some (default (JStr "unknown") (fields !! "origin"))).

(** The two shapes of a record that the file-check tool's probe builds. *)
Definition checker_shape (o : gmap string json) : Prop :=
  (∃ proxy msg, o = failed proxy msg)
  ∨ (∃ proxy seconds real_ip,
       o = <["proxy" := JStr proxy]> (<["status" := JStr "working"]>
             (<["response_time" := JFloat seconds]> (<["real_ip" := real_ip]> ∅)))).

(** The outcomes of one run of the file-check tool's pool, as they arrive. *)
Definition checker_outcomes (E : env) (proxies : list string) : list (gmap string json) :=
  as_completed (probe_sched E) (Checker.submit_all E proxies).

(** A run to evaluate: three candidates, one of them listed twice. *)
Definition answered : exchange := {|
  answer := Responded {| status_code := 200; text := "ok";
                         json_body := inr (JObj {["origin" := JStr "203.0.113.7"]});
                         elapsed := 1 # 4 |};
  wall := 3 # 10
|}.

Definition refused : exchange := {|
  answer := Raised (Exn RequestException "Connection refused");
  wall := 0
|}.

Definition demo_env : env := {|
  source_net := λ _ _, Raised (Exn RequestException "Connection refused");
  source_sched := [2; 0];
  hash_order := [1];
  probe_net := λ i _, match i with 0 => answered | _ => refused end;
  probe_sched := [1]
|}.

Definition demo_list : string :=
  "# proxies" +:+ nl +:+ "10.0.0.1:8080" +:+ nl +:+ nl +:+ " 10.0.0.2:3128 " +:+ nl
  +:+ "10.0.0.1:8080" +:+ nl.

Definition demo_world : world := {|
  stdout := [];
  files := {["proxies.txt" := demo_list]};
  unwritable := ∅
|}.

(** The state after [line] is printed. *)
Definition printed (w : world) (line : string) : world :=
  {| stdout := (stdout w ++ [line])%list; files := files w; unwritable := unwritable w |}.

(** C7 as written: with a missing input file the run of the tool ends as a
    fatal error and produces no output file. *)
Definition missing_input_is_fatal `{Runtime} : Prop :=
  ∀ prog filename E w,
    files w !! filename = None →
    ∃ r w', Checker.main [prog; filename] E w = (r, w')
            ∧ r ≠ Return ()
            ∧ files w' = files w.

Definition empty_world : world := {| stdout := []; files := ∅; unwritable := ∅ |}.


(** The shapes of a record that the aggregation tool's probe builds. *)
Definition finder_shape (o : gmap string json) : Prop :=
  (∃ proxy msg, o = failed proxy msg)
  ∨ (∃ proxy seconds,
       o = <["proxy" := JStr proxy]> (<["status" := JStr "working"]>
             (<["response_time" := JFloat seconds]> (<["protocol" := JStr "http"]> ∅))))
  ∨ (∃ proxy seconds real_ip,
       o = <["proxy" := JStr proxy]> (<["status" := JStr "working"]>
             (<["response_time" := JFloat seconds]>
               (<["real_ip" := real_ip]> (<["protocol" := JStr "http"]> ∅))))).


(** The list that [fetch_proxy_list] returns. *)
Definition fetched (src : Finder.source) (r : reply) : list string :=
  match (Finder.fetch_proxy_list src r empty_world).1 with
  | Return proxies => proxies
  | _ => []
  end.

(** What one source adds to [all_proxies]. *)
Definition contribution (max_proxies_per_source : Z)
    (future : Finder.source * reply) : list string :=
  slice_to (fetched future.1 future.2) max_proxies_per_source.

(** [all_proxies] after the loop of lines 146-151, before [set]. *)
Definition pool (self : Finder.ProxyFinder) (max_proxies_per_source : Z)
    (E : env) : list string :=
  as_completed (source_sched E) (Finder.submit_fetches self E)
    ≫= contribution max_proxies_per_source.

(** The candidates handed to the probing pool. *)
Definition candidates (self : Finder.ProxyFinder) (max_proxies_per_source : Z)
    (E : env) : list string :=
  match list_set (hash_order E) (pool self max_proxies_per_source E) with
  | [] => Finder.fallback_proxies
  | all_proxies => all_proxies
  end.

(** The scenario of two sources that each return the same candidate twice. *)
Definition twice : Finder.source := {|
  Finder.name := "twice";
  Finder.url := "http://lists.example/twice";
  Finder.parser := λ _, inr ["1.1.1.1:80"; "1.1.1.1:80"]
|}.

Definition two_sources : Finder.ProxyFinder :=
  {| Finder.sources := [twice; twice]; Finder.test_proxies := [] |}.

Definition online_env : env := {|
  source_net := λ _ _, Responded {| status_code := 200; text := "";
                                    json_body := inl (Exn ValueError "Expecting value");
                                    elapsed := 1 # 10 |};
  source_sched := [1];
  hash_order := [];
  probe_net := λ _ _, refused;
  probe_sched := []
|}.

(** A source that returns 51 distinct candidates. *)
Definition fifty_one : list string :=
  (λ i : nat, "10.0.0." +:+ pretty i +:+ ":80") <$> seq 1 51.

Definition big_source : Finder.source := {|
  Finder.name := "big";
  Finder.url := "http://lists.example/big";
  Finder.parser := λ _, inr fifty_one
|}.

Definition one_big_source : Finder.ProxyFinder :=
  {| Finder.sources := [big_source]; Finder.test_proxies := [] |}.



Definition array_body : exchange := {|
  answer := Responded {| status_code := 200; text := "[1, 2]";
                         json_body := inr (JArr [JInt 1; JInt 2]);
                         elapsed := 1 # 4 |};
  wall := 3 # 10
|}.

(** ['.' in s] *)
Fixpoint has_dot (s : string) : bool :=
  match s with
  | String c rest => bool_decide (c = "."%char) || has_dot rest
  | EmptyString => false
  end.


(** A runtime whose decoder knows one document. *)
Definition decoding_runtime : Runtime := {|
  py_round2 := λ x, x;
  py_str := λ v, match v with JInt n => pretty n | _ => "?" end;
  py_format_2f := two_decimals;
  json_loads := λ s,
    if decide (s = "[one]") then
      inr (JArr [JObj {["ip" := JStr "10.0.0.1"; "port" := JInt 8080]}])
    else if decide (s = "[bad]") then
      inr (JArr [JObj {["ip" := JStr "10.0.0.1"; "port" := JInt 8080]};
                 JObj {["host" := JStr "10.0.0.2:80"]}])
    else inl (Exn ValueError "Expecting value");
  json_dumps := λ v, match v with JArr [] => "[]" | _ => "[...]" end
|}.

(** * Properties *)

(** ** The probe *)

Lemma failed_lookup proxy msg :
  failed proxy msg !! "proxy" = Some (JStr proxy)
  ∧ failed proxy msg !! "status" = Some (JStr "failed")
  ∧ failed proxy msg !! "error" = Some (JStr msg)
  ∧ failed proxy msg !! "response_time" = None
  ∧ failed proxy msg !! "real_ip" = None.
Proof. unfold failed. by simplify_map_eq. Qed.

Lemma invariant_of_failed (o : gmap string json) :
  o !! "status" = Some (JStr "failed") → is_Some (o !! "error") →
  o !! "response_time" = None → outcome_invariant o.
Proof.
  intros Hs He Ht. unfold outcome_invariant. rewrite Hs, Ht.
  repeat split; eauto; try done; by intros [[? ?] _].
Qed.

Lemma invariant_of_working (o : gmap string json) :
  o !! "status" = Some (JStr "working") → is_Some (o !! "response_time") →
  o !! "error" = None → outcome_invariant o.
Proof.
  intros Hs Ht He. unfold outcome_invariant. rewrite Hs, He.
  repeat split; eauto; try done; by intros [_ [? ?]].
Qed.

Lemma failed_invariant proxy msg : outcome_invariant (failed proxy msg).
Proof.
  destruct (failed_lookup proxy msg) as (_ & Hs & He & Ht & _).
  apply invariant_of_failed; [done | by rewrite He | done].
Qed.

Lemma checker_handler_failed proxy e :
  ∃ msg, Checker.handler proxy e = failed proxy msg
         ∧ (msg = exn_str e ∨ msg = "Unexpected error: " +:+ exn_str e).
Proof. unfold Checker.handler. destruct (exn_cls e); eauto. Qed.

(** The invariant of outcome records, for the file-check tool's probe. *)
Lemma checker_outcome_invariant proxy x :
  outcome_invariant (Checker.check_proxy proxy x).
Proof.
  unfold Checker.check_proxy.
  destruct (answer x) as [e | response].
  { destruct (checker_handler_failed proxy e) as (msg & -> & _). apply failed_invariant. }
  case_decide; [| apply failed_invariant].
  destruct (json_body response) as [e | data].
  { destruct (checker_handler_failed proxy e) as (msg & -> & _). apply failed_invariant. }
  destruct (data_get_origin data) as [e | real_ip].
  { destruct (checker_handler_failed proxy e) as (msg & -> & _). apply failed_invariant. }
  apply invariant_of_working; by simplify_map_eq.
Qed.

(** The invariant of outcome records, for the aggregation tool's probe. *)
Lemma finder_outcome_invariant `{Runtime} proxy x :
  outcome_invariant (Finder.check_proxy proxy x).
Proof.
  unfold Finder.check_proxy.
  destruct (answer x) as [e | response]; [apply failed_invariant |].
  case_decide; [| apply failed_invariant].
  destruct (json_body response) as [e | data].
  { apply invariant_of_working; by simplify_map_eq. }
  destruct (data_get_origin data) as [e | real_ip];
    apply invariant_of_working; by simplify_map_eq.
Qed.

(** C3: every outcome record built by the probe of either tool has status
    'working' or 'failed', has [response_time] exactly when it is
    'working', has [error] exactly when it is 'failed', and never has
    both. *)
Theorem outcome_invariant_both_tools `{Runtime} (proxy : string) (x : exchange) :
  outcome_invariant (Checker.check_proxy proxy x)
  ∧ outcome_invariant (Finder.check_proxy proxy x).
Proof. split; [apply checker_outcome_invariant | apply finder_outcome_invariant]. Qed.

(** C5: a response whose status code is not 200 gives, in both tools, a
    'failed' outcome whose error is 'HTTP ' followed by the code in
    decimal; for a 403 the error contains '403'. *)
Theorem non_200_is_failed `{Runtime} (proxy : string) (x : exchange) (response : Response) :
  answer x = Responded response →
  status_code response ≠ 200%Z →
  (Checker.check_proxy proxy x !! "status" = Some (JStr "failed")
   ∧ Checker.check_proxy proxy x !! "error"
     = Some (JStr ("HTTP " +:+ pretty (status_code response))))
  ∧ (Finder.check_proxy proxy x !! "status" = Some (JStr "failed")
     ∧ Finder.check_proxy proxy x !! "error"
       = Some (JStr ("HTTP " +:+ pretty (status_code response))))
  ∧ (status_code response = 403%Z →
     ∀ detail, Checker.check_proxy proxy x !! "error" = Some (JStr detail)
               ∨ Finder.check_proxy proxy x !! "error" = Some (JStr detail) →
     contains "403" detail).
Proof.
  intros Hx Hcode.
  assert (Checker.check_proxy proxy x = failed proxy (http_error (status_code response))) as Hc.
  { unfold Checker.check_proxy. rewrite Hx. by case_decide. }
  assert (Finder.check_proxy proxy x = failed proxy (http_error (status_code response))) as Hf.
  { unfold Finder.check_proxy. rewrite Hx. by case_decide. }
  rewrite Hc, Hf.
  destruct (failed_lookup proxy (http_error (status_code response))) as (_ & Hs & He & _).
  repeat split; try done.
  intros H403 detail Hd. rewrite He in Hd.
  assert (detail = http_error (status_code response)) as -> by (destruct Hd; congruence).
  rewrite H403. by exists "HTTP ", "".
Qed.

Lemma non_200_is_failed_witness :
  Checker.check_proxy "10.0.0.1:8080" forbidden !! "error" = Some (JStr "HTTP 403")
  ∧ @Finder.check_proxy demo_runtime "10.0.0.1:8080" forbidden !! "status"
    = Some (JStr "failed").
Proof.
  pose proof (@non_200_is_failed demo_runtime "10.0.0.1:8080" forbidden _ eq_refl) as Hw.
  destruct Hw as ((_ & Herr) & (Hst & _) & _); [by vm_compute |].
  split; [exact Herr | exact Hst].
Defined.

(** ** Undecodable bodies *)

(** C1 fails for the file-check tool: its probe has no inner [try] around
    [response.json()], so the decoding error reaches the outer [except]
    clauses and the outcome is 'failed'. *)
Lemma checker_parse_failure_is_failed :
  Checker.check_proxy "10.0.0.1:8080" undecodable !! "status" = Some (JStr "failed")
  ∧ Checker.check_proxy "10.0.0.1:8080" undecodable !! "error"
    = Some (JStr "Expecting value: line 1 column 1 (char 0)")
  ∧ ¬ parse_failure_downgraded Checker.check_proxy.
Proof.
  split_and!; [by vm_compute | by vm_compute |].
  intros Hclaim.
  destruct (Hclaim "10.0.0.1:8080" undecodable _ _ eq_refl eq_refl eq_refl) as [Hs _].
  by vm_compute in Hs.
Qed.

(** C1, amended: on a 200 response whose body does not decode, the
    aggregation tool's probe gives a 'working' outcome without [real_ip]
    (and without [error]); the file-check tool's probe gives a 'failed'
    outcome without [real_ip], whose error is the text of the decoding
    exception, prefixed with 'Unexpected error: ' unless the exception is
    a [RequestException]. *)
Theorem parse_failure_outcomes `{Runtime} (proxy : string) (x : exchange)
    (response : Response) (e : exn) :
  answer x = Responded response →
  status_code response = 200%Z →
  json_body response = inl e →
  (Finder.check_proxy proxy x !! "status" = Some (JStr "working")
   ∧ Finder.check_proxy proxy x !! "real_ip" = None
   ∧ Finder.check_proxy proxy x !! "error" = None)
  ∧ (Checker.check_proxy proxy x !! "status" = Some (JStr "failed")
     ∧ Checker.check_proxy proxy x !! "real_ip" = None
     ∧ Checker.check_proxy proxy x !! "error"
       = Some (JStr (if decide (exn_cls e = RequestException) then exn_str e
                     else "Unexpected error: " +:+ exn_str e))).
Proof.
  intros Hx Hcode Hbody. split.
  - unfold Finder.check_proxy. rewrite Hx, Hbody. case_decide; [| done].
    by simplify_map_eq.
  - unfold Checker.check_proxy. rewrite Hx, Hbody. case_decide; [| done].
    unfold Checker.handler.
    destruct e as [cls msg]; destruct cls; simpl;
      match goal with |- context [failed ?p ?m] =>
        destruct (failed_lookup p m) as (_ & -> & -> & _ & ->) end; done.
Qed.

Lemma parse_failure_outcomes_witness :
  @Finder.check_proxy demo_runtime "10.0.0.1:8080" undecodable !! "status"
    = Some (JStr "working")
  ∧ Checker.check_proxy "10.0.0.1:8080" undecodable !! "status" = Some (JStr "failed").
Proof.
  pose proof (@parse_failure_outcomes demo_runtime "10.0.0.1:8080" undecodable _ _
                eq_refl eq_refl eq_refl) as ((Hf & _) & (Hc & _)).
  split; [exact Hf | exact Hc].
Defined.

(** ** The external address *)

(** C2 fails for both tools: [data.get('origin', 'unknown')] supplies the
    default 'unknown', so [real_ip] is present although the body has no
    [origin] field. *)
Lemma real_ip_default_unknown :
  Checker.check_proxy "10.0.0.1:8080" no_origin !! "real_ip" = Some (JStr "unknown")
  ∧ @Finder.check_proxy demo_runtime "10.0.0.1:8080" no_origin !! "real_ip"
    = Some (JStr "unknown")
  ∧ ¬ real_ip_only_from_origin Checker.check_proxy
  ∧ ¬ real_ip_only_from_origin (@Finder.check_proxy demo_runtime).
Proof.
  split_and!; [by vm_compute | by vm_compute | |];
    intros Hclaim;
    destruct (Hclaim "10.0.0.1:8080" no_origin) as [_ Habsent];
    specialize (Habsent _ ∅ eq_refl eq_refl eq_refl eq_refl);
    by vm_compute in Habsent.
Qed.

Lemma data_get_origin_inr data real_ip :
  data_get_origin data = inr real_ip →
  ∃ fields, data = JObj fields ∧ real_ip = default (JStr "unknown") (fields !! "origin").
Proof. destruct data; simpl; intros [= <-]; eauto. Qed.

Lemma checker_real_ip_spec : real_ip_spec Checker.check_proxy.
Proof.
  intros proxy x. unfold Checker.check_proxy. split.
  - destruct (answer x) as [e | response].
    { destruct (checker_handler_failed proxy e) as (msg & -> & _).
      destruct (failed_lookup proxy msg) as (_ & _ & _ & _ & ->). by intros [? ?]. }
    case_decide.
    2: { destruct (failed_lookup proxy (http_error (status_code response)))
           as (_ & _ & _ & _ & ->). by intros [? ?]. }
    destruct (json_body response) as [e | data] eqn:Hbody.
    { destruct (checker_handler_failed proxy e) as (msg & -> & _).
      destruct (failed_lookup proxy msg) as (_ & _ & _ & _ & ->). by intros [? ?]. }
    destruct (data_get_origin data) as [e | real_ip] eqn:Hget.
    { destruct (checker_handler_failed proxy e) as (msg & -> & _).
      destruct (failed_lookup proxy msg) as (_ & _ & _ & _ & ->). by intros [? ?]. }
    intros _. split; [by simplify_map_eq |].
    destruct (data_get_origin_inr _ _ Hget) as (fields & -> & _). eauto.
  - intros response fields -> Hcode ->. rewrite decide_True by done. simpl.
    by simplify_map_eq.
Qed.

Lemma finder_real_ip_spec `{Runtime} : real_ip_spec Finder.check_proxy.
Proof.
  intros proxy x. unfold Finder.check_proxy. split.
  - destruct (answer x) as [e | response].
    { destruct (failed_lookup proxy (exn_str e)) as (_ & _ & _ & _ & ->). by intros [? ?]. }
    case_decide.
    2: { destruct (failed_lookup proxy (http_error (status_code response)))
           as (_ & _ & _ & _ & ->). by intros [? ?]. }
    destruct (json_body response) as [e | data] eqn:Hbody.
    { simplify_map_eq. by intros [? ?]. }
    destruct (data_get_origin data) as [e | real_ip] eqn:Hget.
    { simplify_map_eq. by intros [? ?]. }
    intros _. split; [by simplify_map_eq |].
    destruct (data_get_origin_inr _ _ Hget) as (fields & -> & _). eauto.
  - intros response fields -> Hcode ->. rewrite decide_True by done. simpl.
    by simplify_map_eq.
Qed.

(** C2, amended: in both tools [real_ip] is present only when the status
    is 'working' and the 200 response body decoded to a JSON object; it
    then holds that object's [origin] field, and the string 'unknown' when
    the object has no such field. *)
Theorem real_ip_present_with_default `{Runtime} :
  real_ip_spec Checker.check_proxy ∧ real_ip_spec Finder.check_proxy.
Proof. split; [apply checker_real_ip_spec | apply finder_real_ip_spec]. Qed.

(** ** The runner *)

Lemma pick_order_perm {A : Type} (sched : list nat) (l : list A) :
  pick_order sched l ≡ₚ l.
Proof.
  revert l. induction sched as [| k sched IH]; intros l; simpl; [done |].
  destruct (l !! (k mod length l)) as [x |] eqn:Hx; [| done].
  rewrite IH. symmetry. by apply delete_Permutation.
Qed.

(** Every order of the pending elements is the outcome of some schedule. *)
Lemma pick_order_complete {A : Type} (l l' : list A) :
  l ≡ₚ l' → ∃ sched, pick_order sched l = l'.
Proof.
  revert l. induction l' as [| x l' IH]; intros l Hp.
  - apply Permutation_nil_r in Hp as ->. by exists [].
  - assert (x ∈ l) as Hin by (rewrite Hp; left).
    apply list_elem_of_lookup in Hin as [i Hi].
    pose proof (lookup_lt_Some _ _ _ Hi) as Hlt.
    destruct (IH (delete i l)) as [sched Hs].
    { apply (Permutation_cons_inv (a := x)). rewrite <- Hp.
      symmetry. by apply delete_Permutation. }
    exists (i :: sched). simpl. rewrite Nat.mod_small by done.
    by rewrite Hi, Hs.
Qed.



Lemma checker_check_proxy_shape proxy x : checker_shape (Checker.check_proxy proxy x).
Proof.
  unfold Checker.check_proxy, checker_shape.
  destruct (answer x) as [e | response].
  { destruct (checker_handler_failed proxy e) as (msg & -> & _). eauto. }
  case_decide; [| eauto].
  destruct (json_body response) as [e | data].
  { destruct (checker_handler_failed proxy e) as (msg & -> & _). eauto. }
  destruct (data_get_origin data) as [e | real_ip].
  { destruct (checker_handler_failed proxy e) as (msg & -> & _). eauto. }
  right. eauto.
Qed.

Lemma checker_proxy_field proxy x :
  Checker.check_proxy proxy x !! "proxy" = Some (JStr proxy).
Proof.
  unfold Checker.check_proxy.
  destruct (answer x) as [e | response].
  { destruct (checker_handler_failed proxy e) as (msg & -> & _). apply failed_lookup. }
  case_decide; [| apply failed_lookup].
  destruct (json_body response) as [e | data].
  { destruct (checker_handler_failed proxy e) as (msg & -> & _). apply failed_lookup. }
  destruct (data_get_origin data) as [e | real_ip].
  { destruct (checker_handler_failed proxy e) as (msg & -> & _). apply failed_lookup. }
  by simplify_map_eq.
Qed.







Example load_demo_list :
  Checker.load_proxies (file_lines demo_list)
  = ["10.0.0.1:8080"; "10.0.0.2:3128"; "10.0.0.1:8080"].
Proof. by vm_compute. Qed.

Example check_demo_list :
  (λ o : gmap string json, (o !! "proxy", o !! "status"))
    <$> (checker_outcomes demo_env (Checker.load_proxies (file_lines demo_list)))
  = [(Some (JStr "10.0.0.2:3128"), Some (JStr "failed"));
     (Some (JStr "10.0.0.1:8080"), Some (JStr "working"));
     (Some (JStr "10.0.0.1:8080"), Some (JStr "failed"))].
Proof. by vm_compute. Qed.


(** ** A missing input file *)

(** C7 fails on its last part: [check_proxies_from_file] returns the empty
    list and [main] goes on, writes it to the output file and ends
    normally. *)
Lemma missing_input_still_writes_output :
  @Checker.main demo_runtime ["proxy_checker.py"; "missing.txt"] demo_env empty_world
  = (Return (),
     {| stdout := ["Error: File 'missing.txt' not found";
                   nl +:+ "Results saved to missing_results.json"];
        files := {["missing_results.json" := "[]"]};
        unwritable := ∅ |})
  ∧ ¬ @missing_input_is_fatal demo_runtime.
Proof.
  assert (@Checker.main demo_runtime ["proxy_checker.py"; "missing.txt"] demo_env empty_world
          = (Return (),
             {| stdout := ["Error: File 'missing.txt' not found";
                           nl +:+ "Results saved to missing_results.json"];
                files := {["missing_results.json" := "[]"]};
                unwritable := ∅ |})) as Hrun by (by vm_compute).
  split; [exact Hrun |].
  intros Hclaim.
  destruct (Hclaim "proxy_checker.py" "missing.txt" demo_env empty_world eq_refl)
    as (r & w' & Hmain & Hr & _).
  rewrite Hrun in Hmain. by injection Hmain as <- _.
Qed.

Lemma check_proxies_from_file_missing `{Runtime} filename max_workers E w :
  files w !! filename = None →
  Checker.check_proxies_from_file filename max_workers E w
  = (Return [], printed w ("Error: File '" +:+ filename +:+ "' not found")).
Proof.
  intros Hfile.
  unfold Checker.check_proxies_from_file, try_except, read_lines.
  unfold mbind, py_bind, mret, py_ret. by rewrite Hfile.
Qed.

(** C7, amended: when the input file does not exist the error is
    reported, no probe is performed (the run does not depend on the
    network or the scheduler) and [check_proxies_from_file] returns an
    empty result collection; the run is not aborted: [main] goes on with
    the empty collection, writes it to the output file when that file can
    be written, reports it as saved and ends normally. *)
Theorem missing_input_file `{Runtime} (prog filename : string) (E : env) (w : world) :
  files w !! filename = None →
  let reported := printed w ("Error: File '" +:+ filename +:+ "' not found") in
  let output_file := rsplit_dot_head filename +:+ "_results.json" in
  (∀ max_workers E',
     Checker.check_proxies_from_file filename max_workers E' w = (Return [], reported))
  ∧ (output_file ∉ unwritable w →
     Checker.main [prog; filename] E w
     = (Return (),
        {| stdout := (stdout reported ++ [nl +:+ "Results saved to " +:+ output_file])%list;
           files := <[output_file := json_dumps (JArr [])]> (files w);
           unwritable := unwritable w |})).
Proof.
  intros Hfile reported output_file. split.
  - intros. by apply check_proxies_from_file_missing.
  - intros Hw. unfold Checker.main. simpl.
    unfold mbind at 1. unfold py_bind at 1.
    rewrite check_proxies_from_file_missing by done.
    unfold mbind, py_bind, write_file, print. simpl.
    fold output_file. by rewrite decide_False by done.
Qed.

Lemma missing_input_file_witness :
  @Checker.check_proxies_from_file demo_runtime "missing.txt" 10 demo_env empty_world
  = (Return [], printed empty_world "Error: File 'missing.txt' not found").
Proof.
  destruct (@missing_input_file demo_runtime "proxy_checker.py" "missing.txt"
              demo_env empty_world eq_refl) as [Hret _].
  exact (Hret 10%Z demo_env).
Defined.

(** ** The aggregation tool's probing loop *)

Lemma finder_check_proxy_shape `{Runtime} proxy x :
  finder_shape (Finder.check_proxy proxy x).
Proof.
  unfold Finder.check_proxy, finder_shape.
  destruct (answer x) as [e | response]; [eauto |].
  case_decide; [| eauto].
  destruct (json_body response) as [e | data]; [eauto |].
  destruct (data_get_origin data) as [e | real_ip]; [eauto |].
  right. right. eauto.
Qed.





(** ** Gathering the candidates *)

Lemma fetch_proxy_list_run src r w :
  ∃ w', Finder.fetch_proxy_list src r w = (Return (fetched src r), w')
        ∧ files w' = files w ∧ unwritable w' = unwritable w.
Proof.
  unfold fetched, Finder.fetch_proxy_list, Finder.fetch_handler.
  destruct r as [e | response].
  { destruct (exn_cls e); eexists; split_and!; reflexivity. }
  case_decide; [| eexists; split_and!; reflexivity].
  destruct (Finder.parser src (text response)) as [e | proxies].
  { destruct (exn_cls e); eexists; split_and!; reflexivity. }
  eexists; split_and!; reflexivity.
Qed.

Lemma slice_to_nil {A : Type} (m : Z) : slice_to ([] : list A) m = [].
Proof. unfold slice_to. case_decide; apply take_nil. Qed.

Lemma collect_run m all_proxies future w :
  ∃ w', Finder.collect m all_proxies future w
        = (Return (all_proxies ++ contribution m future)%list, w')
        ∧ files w' = files w ∧ unwritable w' = unwritable w.
Proof.
  unfold Finder.collect, contribution.
  destruct (fetch_proxy_list_run future.1 future.2 w) as (w' & Hrun & Hf & Hu).
  unfold mbind, py_bind. rewrite Hrun. exists w'.
  destruct (fetched future.1 future.2) as [| p proxies]; [| done].
  by rewrite slice_to_nil, app_nil_r.
Qed.

Lemma collect_loop_run m futures :
  ∀ all_proxies w, ∃ w',
    for_each futures (Finder.collect m) all_proxies w
    = (Return (all_proxies ++ (futures ≫= contribution m))%list, w')
    ∧ files w' = files w ∧ unwritable w' = unwritable w.
Proof.
  induction futures as [| future futures IH]; intros all_proxies w; simpl.
  - exists w. by rewrite app_nil_r.
  - destruct (collect_run m all_proxies future w) as (w1 & Hrun & Hf & Hu).
    unfold mbind at 1. unfold py_bind. rewrite Hrun.
    destruct (IH (all_proxies ++ contribution m future)%list w1) as (w2 & Hrest & Hf' & Hu').
    exists w2. rewrite Hrest, <- app_assoc.
    split_and!; [done | congruence | congruence].
Qed.

Lemma list_set_NoDup hash_order l : NoDup (list_set hash_order l).
Proof. unfold list_set. rewrite pick_order_perm. apply NoDup_elements. Qed.

Lemma elem_of_list_set hash_order l s : s ∈ list_set hash_order l ↔ s ∈ l.
Proof.
  unfold list_set. rewrite pick_order_perm, elem_of_elements.
  apply elem_of_list_to_set.
Qed.

Lemma gather_run self m E w :
  ∃ w', Finder.gather self m E w = (Return (candidates self m E), w')
        ∧ files w' = files w ∧ unwritable w' = unwritable w.
Proof.
  unfold Finder.gather, ThreadPoolExecutor.
  unfold mbind, py_bind, mret, py_ret. simpl.
  match goal with |- context [for_each ?l (Finder.collect m) ?acc ?w0] =>
    destruct (collect_loop_run m l acc w0) as (w1 & Hloop & Hf & Hu) end.
  rewrite Hloop. simpl. unfold candidates, pool.
  destruct (list_set _ _) as [| p l];
    eexists; (split_and!; [reflexivity | by rewrite Hf | by rewrite Hu]).
Qed.

Lemma occurs_once (l : list string) (s : string) :
  NoDup l → s ∈ l → length (filter (λ x, x = s) l) = 1.
Proof.
  induction 1 as [| x l Hx Hnd IH]; intros Hin; [by apply elem_of_nil in Hin |].
  rewrite filter_cons. case_decide as Hxs.
  - subst x. simpl. f_equal.
    destruct (filter (λ x, x = s) l) as [| y ys] eqn:Hf; [done |].
    assert (y ∈ filter (λ x, x = s) l) as Hy by (rewrite Hf; left).
    by apply list_elem_of_filter in Hy as [-> Hy].
  - apply elem_of_cons in Hin as [-> | Hin]; [done | by apply IH].
Qed.

(** C6: the candidates that the aggregation tool hands to the probing pool
    hold no string twice, and every string collected from the sources is
    among them exactly once, however many sources returned it and however
    often; unless nothing was collected they hold nothing else. *)
Theorem candidates_deduplicated (self : Finder.ProxyFinder)
    (max_proxies_per_source : Z) (E : env) (w : world) :
  ∃ all_proxies w',
    Finder.gather self max_proxies_per_source E w = (Return all_proxies, w')
    ∧ NoDup all_proxies
    ∧ (∀ s, s ∈ pool self max_proxies_per_source E →
            length (filter (λ x, x = s) all_proxies) = 1)
    ∧ (pool self max_proxies_per_source E ≠ [] →
       ∀ s, s ∈ all_proxies → s ∈ pool self max_proxies_per_source E).
Proof.
  destruct (gather_run self max_proxies_per_source E w) as (w' & Hrun & _).
  exists (candidates self max_proxies_per_source E), w'. split; [done |].
  unfold candidates.
  pose proof (list_set_NoDup (hash_order E) (pool self max_proxies_per_source E)) as Hnd.
  pose proof (elem_of_list_set (hash_order E) (pool self max_proxies_per_source E)) as Hin.
  destruct (list_set _ _) as [| p l] eqn:Hset.
  - split_and!.
    + unfold Finder.fallback_proxies. apply (bool_decide_unpack _). by vm_compute.
    + intros s Hs. apply Hin in Hs. by apply elem_of_nil in Hs.
    + intros Hne s _. destruct (pool self max_proxies_per_source E) as [| q qs]; [done |].
      exfalso. eapply elem_of_nil, Hin. left.
  - split_and!; [done | |].
    + intros s Hs. apply occurs_once; [done | by apply Hin].
    + intros _ s Hs. by apply Hin.
Qed.

Example two_sources_one_entry :
  pool two_sources 50 online_env
  = ["1.1.1.1:80"; "1.1.1.1:80"; "1.1.1.1:80"; "1.1.1.1:80"]
  ∧ (Finder.gather two_sources 50 online_env empty_world).1
    = Return ["1.1.1.1:80"].
Proof. split; by vm_compute. Qed.




Lemma finder_proxy_field `{Runtime} proxy x :
  Finder.check_proxy proxy x !! "proxy" = Some (JStr proxy).
Proof.
  unfold Finder.check_proxy.
  destruct (answer x) as [e | response]; [apply failed_lookup |].
  case_decide; [| apply failed_lookup].
  destruct (json_body response) as [e | data]; [by simplify_map_eq |].
  destruct (data_get_origin data) as [e | real_ip]; by simplify_map_eq.
Qed.





(** ** The limit per source *)

Lemma slice_to_nonneg {A : Type} (l : list A) (m : Z) :
  (0 ≤ m)%Z → slice_to l m = take (Z.to_nat m) l.
Proof. intros Hm. unfold slice_to. by rewrite decide_False by lia. Qed.

Lemma list_set_nil_inv hash_order l : list_set hash_order l = [] → l = [].
Proof.
  intros Hset. destruct l as [| s l]; [done |].
  assert (s ∈ list_set hash_order (s :: l)) as Hin by (apply elem_of_list_set; left).
  rewrite Hset in Hin. by apply elem_of_nil in Hin.
Qed.

(** C10: with a limit that is a count (not negative), each source adds to
    the pool the first [max_proxies_per_source] candidates it returned and
    no more; the limit is applied to each source before the set is built,
    so a candidate that no source returns among its first
    [max_proxies_per_source] is not handed to the probing pool. *)
Theorem per_source_limit (self : Finder.ProxyFinder)
    (max_proxies_per_source : Z) (E : env) (w : world) :
  (0 ≤ max_proxies_per_source)%Z →
  let limit := Z.to_nat max_proxies_per_source in
  (∀ all_proxies future w0, ∃ w1,
     Finder.collect max_proxies_per_source all_proxies future w0
     = (Return (all_proxies ++ take limit (fetched future.1 future.2))%list, w1))
  ∧ (∀ future, (length (contribution max_proxies_per_source future) ≤ limit)%nat)
  ∧ ∃ all_proxies w',
      Finder.gather self max_proxies_per_source E w = (Return all_proxies, w')
      ∧ ∀ s, s ∈ all_proxies →
             (∃ future, future ∈ Finder.submit_fetches self E
                        ∧ s ∈ take limit (fetched future.1 future.2))
             ∨ (pool self max_proxies_per_source E = [] ∧ s ∈ Finder.fallback_proxies).
Proof.
  intros Hm limit. split_and!.
  - intros all_proxies future w0.
    destruct (collect_run max_proxies_per_source all_proxies future w0) as (w1 & Hrun & _).
    exists w1. rewrite Hrun. unfold contribution. by rewrite slice_to_nonneg.
  - intros future. unfold contribution. rewrite slice_to_nonneg by done.
    rewrite length_take. lia.
  - destruct (gather_run self max_proxies_per_source E w) as (w' & Hrun & _).
    exists (candidates self max_proxies_per_source E), w'. split; [done |].
    intros s Hs. unfold candidates in Hs.
    destruct (list_set (hash_order E) (pool self max_proxies_per_source E))
      as [| p l] eqn:Hset.
    + right. split; [by eapply list_set_nil_inv | done].
    + left. rewrite <- Hset in Hs. apply elem_of_list_set in Hs.
      unfold pool in Hs. apply list_elem_of_bind in Hs as (future & Hs & Hin).
      unfold as_completed in Hin. rewrite pick_order_perm in Hin.
      exists future. split; [done |].
      unfold contribution in Hs. by rewrite slice_to_nonneg in Hs.
Qed.

Lemma per_source_limit_witness :
  ∃ all_proxies w',
    Finder.gather one_big_source 50 online_env empty_world = (Return all_proxies, w')
    ∧ "10.0.0.51:80" ∈ fifty_one
    ∧ "10.0.0.51:80" ∉ all_proxies.
Proof.
  destruct (per_source_limit one_big_source 50 online_env empty_world)
    as (_ & _ & all_proxies & w' & Hrun & Hin); [done |].
  exists all_proxies, w'. split_and!; [done | |].
  - apply (bool_decide_unpack _). by vm_compute.
  - intros Hs. apply Hin in Hs as [(future & Hf & Hs) | (Hp & _)].
    + unfold Finder.submit_fetches in Hf. simpl in Hf.
      apply list_elem_of_singleton in Hf as ->.
      revert Hs. apply (bool_decide_unpack _). by vm_compute.
    + by vm_compute in Hp.
Defined.

(** ** What is written to the output files *)









(** ** Sample runs *)

Example checker_sample_run :
  stdout (@Checker.main demo_runtime ["proxy_checker.py"; "proxies.txt"]
            demo_env demo_world).2
  = ["Loaded 3 proxies from proxies.txt";
     "Checking proxies with 10 concurrent threads...";
     "✗ 10.0.0.2:3128 - Connection refused";
     "✓ 10.0.0.1:8080 - 0.25s - Real IP: 203.0.113.7";
     "✗ 10.0.0.1:8080 - Connection refused";
     nl +:+ "Summary: 1/3 proxies are working";
     nl +:+ "Results saved to proxies_results.json"].
Proof. by vm_compute. Qed.

Example finder_sample_run :
  stdout (@Finder.main demo_runtime demo_env empty_world).2
  = ["Fetching proxy lists from sources...";
     "✗ proxy-list.download HTTPS: Connection refused";
     "✗ free-proxy-list.net: Connection refused";
     "✗ proxy-list.download HTTP: Connection refused";
     "✗ proxyscrape HTTP: Connection refused";
     nl +:+ "Collected 0 unique proxies";
     "No proxies found from sources. Using test proxies...";
     "Testing 4 proxies...";
     "✗ 1.1.1.1:80 - Connection refused";
     "✓ 8.8.8.8:80 - 0.30s - IP: 203.0.113.7";
     "✗ 208.67.222.222:80 - Connection refused";
     "✗ 208.67.220.220:80 - Connection refused";
     nl +:+ "Found 1 working proxies";
     nl +:+ "Results saved to working_proxies.json and working_proxies.txt"]
  ∧ files (@Finder.main demo_runtime demo_env empty_world).2 !! "working_proxies.txt"
    = Some ("8.8.8.8:80" +:+ nl).
Proof. split; by vm_compute. Qed.

(** A worker cap that is not positive is refused by the pool. *)
Example no_worker_is_refused :
  (@Checker.check_proxies_from_file demo_runtime "proxies.txt" 0 demo_env demo_world).1
  = Raise (Exn ValueError "max_workers must be greater than 0").
Proof. by vm_compute. Qed.

(** The text parsers on a plain list. *)
Example parse_proxyscrape_sample :
  Finder.parse_proxyscrape ("10.0.0.1:80 " +:+ nl +:+ nl +:+ "comment" +:+ nl +:+ "10.0.0.2:81")
  = inr ["10.0.0.1:80"; "10.0.0.2:81"].
Proof. by vm_compute. Qed.

Example parse_proxy_list_download_sample :
  @Finder.parse_proxy_list_download demo_runtime ("10.0.0.1:80" +:+ nl +:+ "10.0.0.2:81")
  = inr ["10.0.0.1:80"; "10.0.0.2:81"].
Proof. by vm_compute. Qed.

(** * Further properties of the two tools *)

(** ** Stripping *)

Lemma lstrip_head s c r : lstrip s = String c r → is_space c = false.
Proof.
  induction s as [| a s IH]; simpl; [done |].
  destruct (is_space a) eqn:Ha; [done |]. by intros [= <- _].
Qed.

Lemma lstrip_fixed c r : is_space c = false → lstrip (String c r) = String c r.
Proof. intros Hc. simpl. by rewrite Hc. Qed.

Lemma rstrip_head s c r : rstrip s = String c r → ∃ r', s = String c r'.
Proof.
  destruct s as [| a s]; simpl; [done |].
  destruct (rstrip s); [destruct (is_space a); [done |] |]; intros [= <- _]; eauto.
Qed.

Lemma rstrip_idemp s : rstrip (rstrip s) = rstrip s.
Proof.
  induction s as [| a s IH]; simpl; [done |].
  destruct (rstrip s) as [| b kept] eqn:Hs.
  - destruct (is_space a) eqn:Ha; simpl; [done |]. by rewrite Ha.
  - simpl in *. by rewrite IH.
Qed.

Lemma strip_idemp s : strip (strip s) = strip s.
Proof.
  unfold strip.
  destruct (rstrip (lstrip s)) as [| c r] eqn:Hs; [done |].
  destruct (rstrip_head _ _ _ Hs) as [r' Hl].
  rewrite lstrip_fixed by (by eapply lstrip_head).
  by rewrite <- Hs, rstrip_idemp.
Qed.

Lemma colon_not_space c : is_space c = true → bool_decide (c = ":"%char) = false.
Proof. intros Hc. apply bool_decide_eq_false. by intros ->. Qed.

Lemma has_colon_lstrip s : has_colon (lstrip s) = has_colon s.
Proof.
  induction s as [| a s IH]; simpl; [done |].
  destruct (is_space a) eqn:Ha; [| done]. by rewrite colon_not_space.
Qed.

Lemma has_colon_rstrip s : has_colon (rstrip s) = has_colon s.
Proof.
  induction s as [| a s IH]; simpl; [done |].
  destruct (rstrip s) as [| b kept] eqn:Hs.
  - simpl in IH. rewrite <- IH.
    destruct (is_space a) eqn:Ha; simpl; [by rewrite colon_not_space | done].
  - simpl in *. by rewrite IH.
Qed.

Lemma has_colon_strip s : has_colon (strip s) = has_colon s.
Proof. unfold strip. by rewrite has_colon_rstrip, has_colon_lstrip. Qed.

Lemma has_colon_nonempty s : has_colon s = true → strip s ≠ "".
Proof. intros Hs Hempty. rewrite <- has_colon_strip, Hempty in Hs. done. Qed.

(** ** Reading the proxy list file *)


(** A comment that is indented is not skipped: the test for '#' is on the
    line as read, the candidate is the stripped line. *)
Example indented_comment_is_a_candidate :
  Checker.load_proxies ["# skipped" +:+ nl; "  # kept" +:+ nl; "   " +:+ nl]
  = ["# kept"].
Proof. by vm_compute. Qed.

(** ** The list parsers *)

(** X2: [parse_proxyscrape] returns the same list as the plain-text
    reading of [parse_proxy_list_download]: its extra test
    [line.strip()] never rejects a line that holds a ':'.  Every entry
    holds a ':', is stripped and is not empty. *)
Theorem text_parsers_agree (content : string) :
  Finder.parse_proxyscrape content = inr (Finder.plain_text_list content)
  ∧ Forall (λ c, has_colon c = true ∧ strip c = c ∧ c ≠ "")
           (Finder.plain_text_list content).
Proof.
  unfold Finder.parse_proxyscrape, Finder.plain_text_list. split.
  - f_equal. f_equal. apply list_filter_iff. intros line. split.
    + intros Hl. by apply andb_true_iff in Hl as [? _].
    + intros Hl. rewrite Hl. simpl. apply negb_true_iff, bool_decide_eq_false.
      by apply has_colon_nonempty.
  - apply Forall_forall. intros c Hc.
    apply list_elem_of_fmap in Hc as (line & -> & Hline).
    apply list_elem_of_filter in Hline as [Hcolon _].
    split_and!; [by rewrite has_colon_strip | apply strip_idemp |
                 by apply has_colon_nonempty].
Qed.

Lemma ip_port_is_Some `{Runtime} (item : json) :
  is_Some (Finder.ip_port item)
  ↔ ∃ fields, item = JObj fields ∧ is_Some (fields !! "ip") ∧ is_Some (fields !! "port").
Proof.
  split.
  - destruct item as [| | | | | |fields]; simpl; try by intros [? ?].
    destruct (fields !! "ip") eqn:Hip; simpl; [| by intros [? ?]].
    destruct (fields !! "port") eqn:Hport; simpl; [| by intros [? ?]].
    intros _. exists fields. by rewrite Hip, Hport.
  - intros (fields & -> & [ip Hip] & [port Hport]). simpl. rewrite Hip. simpl.
    rewrite Hport. simpl. eauto.
Qed.

(** X3: [parse_proxy_list_download] reads a decoded JSON array all or
    nothing: when every item is an object with the keys 'ip' and 'port'
    it returns one 'ip:port' string per item, in order; when one item is
    not, nothing of the array is used and the content is read as a plain
    list.  Content that does not decode is read as a plain list too. *)
Theorem download_list_all_or_nothing `{Runtime} (content : string) :
  (∀ e, json_loads content = inl e →
        Finder.parse_proxy_list_download content = inr (Finder.plain_text_list content))
  ∧ (∀ items, json_loads content = inr (JArr items) →
       (Forall (λ item, ∃ fields, item = JObj fields ∧ is_Some (fields !! "ip")
                                   ∧ is_Some (fields !! "port")) items →
        ∃ proxies,
          Finder.parse_proxy_list_download content = inr proxies
          ∧ Forall2 (λ item c, ∃ fields ip port,
                       item = JObj fields ∧ fields !! "ip" = Some ip
                       ∧ fields !! "port" = Some port
                       ∧ c = fstr ip +:+ ":" +:+ fstr port) items proxies)
       ∧ (Exists (λ item, ¬ ∃ fields, item = JObj fields ∧ is_Some (fields !! "ip")
                                       ∧ is_Some (fields !! "port")) items →
          Finder.parse_proxy_list_download content
          = inr (Finder.plain_text_list content))).
Proof.
  unfold Finder.parse_proxy_list_download. split.
  - intros e ->. done.
  - intros items ->. simpl. split.
    + intros Hall.
      assert (is_Some (mapM Finder.ip_port items)) as [proxies Hm].
      { apply mapM_is_Some. eapply Forall_impl; [exact Hall |].
        intros item Hitem. by apply ip_port_is_Some. }
      exists proxies. rewrite Hm. split; [done |].
      apply mapM_Some in Hm. eapply Forall2_impl; [exact Hm |].
      intros item c Hc. simpl in Hc.
      destruct item as [| | | | | |fields]; simpl in Hc; try done.
      destruct (fields !! "ip") as [ip |] eqn:Hip; simpl in Hc; [| done].
      destruct (fields !! "port") as [port |] eqn:Hport; simpl in Hc; [| done].
      injection Hc as <-. by exists fields, ip, port.
    + intros Hex.
      assert (mapM Finder.ip_port items = None) as ->; [| done].
      apply mapM_None. eapply Exists_impl; [exact Hex |].
      intros item Hitem. simpl in Hitem.
      destruct (Finder.ip_port item) eqn:Hip; [| done].
      exfalso. apply Hitem. apply ip_port_is_Some. by rewrite Hip.
Qed.

(** ** Fetching a source *)

(** X4: [fetch_proxy_list] never raises: whatever the request does, it
    returns a list, prints exactly one line and leaves the files alone;
    the list is empty when the request raised, when the status code is
    not 200 and when the parser raised. *)
Theorem fetch_proxy_list_contained (src : Finder.source) (r : reply) (w : world) :
  ∃ proxies line w',
    Finder.fetch_proxy_list src r w = (Return proxies, w')
    ∧ stdout w' = (stdout w ++ [line])%list
    ∧ files w' = files w
    ∧ match r with
      | Raised _ => proxies = []
      | Responded response =>
          if decide (status_code response = 200%Z) then
            match Finder.parser src (text response) with
            | inr parsed => proxies = parsed
            | inl _ => proxies = []
            end
          else proxies = []
      end.
Proof.
  unfold Finder.fetch_proxy_list, Finder.fetch_handler.
  destruct r as [e | response].
  { destruct (exn_cls e); eexists _, _, _; split_and!; reflexivity. }
  case_decide; [| eexists _, _, _; split_and!; reflexivity].
  destruct (Finder.parser src (text response)) as [e | proxies].
  { destruct (exn_cls e); eexists _, _, _; split_and!; reflexivity. }
  eexists _, _, _; split_and!; reflexivity.
Qed.

(** X5: a source read with [parse_free_proxy_list] adds no candidate,
    whatever its request returns; the first source of [__init__] is one. *)
Theorem free_proxy_list_adds_nothing (src : Finder.source) :
  Finder.parser src = Finder.parse_free_proxy_list →
  (∀ r max_proxies_per_source, contribution max_proxies_per_source (src, r) = [])
  ∧ (∀ r all_proxies max_proxies_per_source w, ∃ w',
       Finder.collect max_proxies_per_source all_proxies (src, r) w
       = (Return all_proxies, w')).
Proof.
  intros Hparser.
  assert (∀ r, fetched src r = []) as Hnone.
  { intros r. unfold fetched, Finder.fetch_proxy_list, Finder.fetch_handler.
    rewrite Hparser. destruct r as [e | response]; [by destruct (exn_cls e) |].
    by case_decide. }
  split.
  - intros r m. unfold contribution. simpl. rewrite Hnone. apply slice_to_nil.
  - intros r all_proxies m w.
    destruct (collect_run m all_proxies (src, r) w) as (w' & Hrun & _).
    exists w'. rewrite Hrun. unfold contribution. simpl.
    by rewrite Hnone, slice_to_nil, app_nil_r.
Qed.

Lemma free_proxy_list_adds_nothing_witness :
  ∃ src, Finder.sources (@Finder.init demo_runtime) !! 0%nat = Some src
         ∧ Finder.name src = "free-proxy-list.net"
         ∧ ∀ r, contribution 50 (src, r) = [].
Proof.
  eexists. split; [reflexivity |]. split; [reflexivity |].
  intros r.
  refine (proj1 (free_proxy_list_adds_nothing _ _) r 50%Z). reflexivity.
Defined.

(** ** The probe: transport failures and odd bodies *)

(** X6: when [requests.get] raises, both probes give a 'failed' record
    without [response_time] and [real_ip]; the aggregation tool's error is
    [str(e)], the file-check tool's error is [str(e)] for a
    [RequestException] and 'Unexpected error: ' followed by [str(e)] for
    any other exception. *)
Theorem transport_failure_is_failed `{Runtime} (proxy : string) (x : exchange) (e : exn) :
  answer x = Raised e →
  Finder.check_proxy proxy x = failed proxy (exn_str e)
  ∧ Checker.check_proxy proxy x
    = failed proxy (if decide (exn_cls e = RequestException) then exn_str e
                    else "Unexpected error: " +:+ exn_str e).
Proof.
  intros Hx. unfold Finder.check_proxy, Checker.check_proxy, Checker.handler.
  rewrite Hx. split; [done |]. by destruct e as [[] msg].
Qed.

Lemma transport_failure_is_failed_witness :
  @Finder.check_proxy demo_runtime "10.0.0.1:8080" refused
  = failed "10.0.0.1:8080" "Connection refused"
  ∧ Checker.check_proxy "10.0.0.1:8080" refused
    = failed "10.0.0.1:8080" "Connection refused".
Proof.
  exact (@transport_failure_is_failed demo_runtime "10.0.0.1:8080" refused _ eq_refl).
Defined.

(** X7: a 200 response whose body decodes to JSON that is not an object
    (so that [data.get] raises) is 'failed' for the file-check tool, with
    an 'Unexpected error: ' naming the type, and 'working' without
    [real_ip] for the aggregation tool. *)
Theorem non_object_body `{Runtime} (proxy : string) (x : exchange)
    (response : Response) (data : json) :
  answer x = Responded response →
  status_code response = 200%Z →
  json_body response = inr data →
  (∀ fields, data ≠ JObj fields) →
  Checker.check_proxy proxy x
  = failed proxy ("Unexpected error: '" +:+ type_name data
                    +:+ "' object has no attribute 'get'")
  ∧ Finder.check_proxy proxy x !! "status" = Some (JStr "working")
  ∧ Finder.check_proxy proxy x !! "real_ip" = None
  ∧ Finder.check_proxy proxy x !! "response_time"
    = Some (JFloat (py_round2 (wall x))).
Proof.
  intros Hx Hcode Hbody Hdata.
  unfold Checker.check_proxy, Finder.check_proxy. rewrite Hx, Hbody.
  rewrite !decide_True by done.
  destruct data; try (by split_and!; [done | by simplify_map_eq ..]).
  by destruct (Hdata fields).
Qed.

Lemma non_object_body_witness :
  Checker.check_proxy "10.0.0.1:8080" array_body
  = failed "10.0.0.1:8080" "Unexpected error: 'list' object has no attribute 'get'"
  ∧ @Finder.check_proxy demo_runtime "10.0.0.1:8080" array_body !! "status"
    = Some (JStr "working").
Proof.
  destruct (@non_object_body demo_runtime "10.0.0.1:8080" array_body _ _
              eq_refl eq_refl eq_refl) as (Hc & Hf & _); [done |].
  split; [exact Hc | exact Hf].
Defined.

(** X8: the record fields.  A record of the file-check tool has either
    the fields proxy, status, error or the fields proxy, status,
    response_time, real_ip; a record of the aggregation tool has either
    proxy, status, error, or proxy, status, response_time, protocol with
    or without real_ip.  The field proxy always holds the candidate. *)
Theorem record_fields `{Runtime} (proxy : string) (x : exchange) :
  (dom (Checker.check_proxy proxy x) = ({["proxy"; "status"; "error"]} : gset string)
   ∨ dom (Checker.check_proxy proxy x)
     = ({["proxy"; "status"; "response_time"; "real_ip"]} : gset string))
  ∧ (dom (Finder.check_proxy proxy x) = ({["proxy"; "status"; "error"]} : gset string)
     ∨ dom (Finder.check_proxy proxy x)
       = ({["proxy"; "status"; "response_time"; "protocol"]} : gset string)
     ∨ dom (Finder.check_proxy proxy x)
       = ({["proxy"; "status"; "response_time"; "real_ip"; "protocol"]} : gset string))
  ∧ Checker.check_proxy proxy x !! "proxy" = Some (JStr proxy)
  ∧ Finder.check_proxy proxy x !! "proxy" = Some (JStr proxy).
Proof.
  split_and!; [| | apply checker_proxy_field | apply finder_proxy_field].
  - destruct (checker_check_proxy_shape proxy x)
      as [(p & msg & ->) | (p & seconds & real_ip & ->)]; [left | right];
      unfold failed; rewrite !dom_insert_L, dom_empty_L; set_solver.
  - destruct (finder_check_proxy_shape proxy x)
      as [(p & msg & ->) | [(p & seconds & ->) | (p & seconds & real_ip & ->)]];
      [left | right; left | right; right];
      unfold failed; rewrite !dom_insert_L, dom_empty_L; set_solver.
Qed.

(** X9: in the file-check tool a record has [real_ip] exactly when its
    status is 'working' (its reporting loop reads [result['real_ip']] of
    every 'working' record); in the aggregation tool a 'working' record
    may lack it. *)
Theorem checker_working_has_real_ip (proxy : string) (x : exchange) :
  is_Some (Checker.check_proxy proxy x !! "real_ip")
  ↔ Checker.check_proxy proxy x !! "status" = Some (JStr "working").
Proof.
  destruct (checker_check_proxy_shape proxy x)
    as [(p & msg & ->) | (p & seconds & real_ip & ->)].
  - destruct (failed_lookup p msg) as (_ & -> & _ & _ & ->).
    split; [by intros [? ?] | done].
  - by simplify_map_eq.
Qed.

(** ** The command line of the file-check tool *)

(** X10: called with anything but one argument, [main] prints the two
    usage lines and exits with status 1; it reads no file, writes none
    and probes nothing. *)
Theorem usage_error `{Runtime} (argv : list string) (E : env) (w : world) :
  length argv ≠ 2 →
  Checker.main argv E w
  = (Exit 1,
     {| stdout := (stdout w ++ ["Usage: python3 proxy_checker.py <proxy_list_file>";
                    "File should contain one proxy per line in format: ip:port"])%list;
        files := files w;
        unwritable := unwritable w |}).
Proof.
  intros Hlen. unfold Checker.main. rewrite decide_True by done.
  unfold mbind, py_bind, print, sys_exit. simpl. by rewrite <- app_assoc.
Qed.

Lemma usage_error_witness :
  (@Checker.main demo_runtime ["proxy_checker.py"] demo_env demo_world).1 = Exit 1.
Proof.
  by rewrite (@usage_error demo_runtime ["proxy_checker.py"] demo_env demo_world).
Defined.

(** ** The name of the output file *)

Lemma app_cons_string (x : ascii) (a b : string) :
  String x a +:+ b = String x (a +:+ b).
Proof. reflexivity. Qed.


Lemma app_length_string (a b : string) :
  String.length (a +:+ b) = (String.length a + String.length b)%nat.
Proof.
  induction a as [| x a IH]; [done |]. rewrite app_cons_string. simpl. by rewrite IH.
Qed.

Lemma before_last_dot_None s : before_last_dot s = None ↔ has_dot s = false.
Proof.
  induction s as [| c s IH]; simpl; [done |].
  destruct (before_last_dot s) as [p |].
  - split; [done |]. intros Hd. apply orb_false_iff in Hd as [_ Hd].
    by apply IH in Hd.
  - destruct IH as [IH _]. rewrite IH by done. rewrite orb_false_r.
    by destruct (bool_decide (c = "."%char)).
Qed.

Lemma before_last_dot_Some s p :
  before_last_dot s = Some p → ∃ ext, s = p +:+ "." +:+ ext ∧ has_dot ext = false.
Proof.
  revert p. induction s as [| c s IH]; intros p; simpl; [done |].
  destruct (before_last_dot s) as [q |] eqn:Hs.
  - intros [= <-]. destruct (IH q eq_refl) as (ext & -> & Hext).
    exists ext. by rewrite app_cons_string.
  - case_bool_decide as Hc; [| done]. intros [= <-]. subst c.
    exists s. split; [done |]. by apply before_last_dot_None.
Qed.

Lemma before_last_dot_app base ext :
  has_dot ext = false → before_last_dot (base +:+ "." +:+ ext) = Some base.
Proof.
  intros Hext. induction base as [| c base IH].
  - change ("" +:+ "." +:+ ext) with (String "."%char ext). simpl.
    apply before_last_dot_None in Hext. by rewrite Hext.
  - rewrite app_cons_string. simpl. by rewrite IH.
Qed.

Lemma output_file_differs (filename : string) :
  rsplit_dot_head filename +:+ "_results.json" ≠ filename.
Proof.
  unfold rsplit_dot_head.
  destruct (before_last_dot filename) as [p |] eqn:Hp; simpl.
  - destruct (before_last_dot_Some _ _ Hp) as (ext & -> & _).
    intros Heq. by apply (inj (String.append p)) in Heq.
  - intros Heq. apply (f_equal String.length) in Heq.
    rewrite app_length_string in Heq. simpl in Heq. lia.
Qed.

(** X11: the output file of the file-check tool is named after the input
    file with what follows its last '.' replaced by '_results.json' (a
    name without '.' is kept whole), and it is never the input file
    itself. *)
Theorem output_file_name (filename : string) :
  (∀ base ext, filename = base +:+ "." +:+ ext → has_dot ext = false →
               rsplit_dot_head filename +:+ "_results.json" = base +:+ "_results.json")
  ∧ (has_dot filename = false →
     rsplit_dot_head filename +:+ "_results.json" = filename +:+ "_results.json")
  ∧ rsplit_dot_head filename +:+ "_results.json" ≠ filename.
Proof.
  split_and!; [| | apply output_file_differs]; unfold rsplit_dot_head.
  - intros base ext -> Hext. by rewrite before_last_dot_app.
  - intros Hd. apply before_last_dot_None in Hd. by rewrite Hd.
Qed.



(** ** The summary of the file-check tool *)





(** ** A worker cap that is not positive *)



(** ** The output files of the aggregation tool *)





(** ** How many candidates are probed *)

Lemma length_bind_le {A B : Type} (f : A → list B) (k : nat) (l : list A) :
  (∀ x, length (f x) ≤ k)%nat → (length (l ≫= f) ≤ length l * k)%nat.
Proof.
  intros Hf. induction l as [| x l IH]; [done |].
  rewrite bind_cons, length_app. specialize (Hf x). simpl length. lia.
Qed.

(** X16: with a limit that is not negative, the aggregation tool probes at
    most as many candidates as the number of sources times the limit, or
    the four fallback endpoints: at most 200 for the four sources and the
    limit 50 that [main] uses. *)
Theorem candidates_bounded (self : Finder.ProxyFinder)
    (max_proxies_per_source : Z) (E : env) (w : world) :
  (0 ≤ max_proxies_per_source)%Z →
  ∃ all_proxies w',
    Finder.gather self max_proxies_per_source E w = (Return all_proxies, w')
    ∧ (length all_proxies
       ≤ 4 `max` (length (Finder.sources self) * Z.to_nat max_proxies_per_source))%nat.
Proof.
  intros Hm.
  destruct (gather_run self max_proxies_per_source E w) as (w' & Hrun & _).
  exists (candidates self max_proxies_per_source E), w'. split; [done |].
  unfold candidates.
  assert (length (list_set (hash_order E) (pool self max_proxies_per_source E))
          ≤ length (Finder.sources self) * Z.to_nat max_proxies_per_source)%nat as Hle.
  { etrans.
    - apply submseteq_length, NoDup_submseteq; [apply list_set_NoDup |].
      intros s Hs. by apply elem_of_list_set in Hs.
    - unfold pool. etrans.
      + apply (length_bind_le _ (Z.to_nat max_proxies_per_source)).
        intros future. unfold contribution. rewrite slice_to_nonneg by done.
        rewrite length_take. lia.
      + unfold as_completed. rewrite pick_order_perm.
        unfold Finder.submit_fetches. by rewrite length_imap. }
  destruct (list_set _ _) as [| p l]; simpl in *; lia.
Qed.

Lemma candidates_bounded_witness :
  ∃ all_proxies w',
    Finder.gather (@Finder.init demo_runtime) 50 online_env empty_world
    = (Return all_proxies, w')
    ∧ (length all_proxies ≤ 200)%nat.
Proof.
  destruct (candidates_bounded (@Finder.init demo_runtime) 50 online_env empty_world)
    as (all_proxies & w' & Hrun & Hle); [done |].
  exists all_proxies, w'. split; [exact Hrun |].
  etrans; [exact Hle |]. by vm_compute.
Defined.




Example download_list_samples :
  @Finder.parse_proxy_list_download decoding_runtime "[one]" = inr ["10.0.0.1:8080"]
  ∧ @Finder.parse_proxy_list_download decoding_runtime "[bad]" = inr []
  ∧ @Finder.parse_proxy_list_download decoding_runtime "10.0.0.3:80" = inr ["10.0.0.3:80"].
Proof. split_and!; by vm_compute. Qed.
